(** * Tennis Club API: court bookings

    A shallow embedding of the booking handlers of [main.py]
    ([get_current_user], [create_booking], [my_bookings]) together with the
    part of the document store they talk to, and the properties of the
    reservation engine proved on it. The second half does the same for
    the accounts ([login], [me]), the admin handlers ([create_court],
    [create_tournament]), [submit_result] and the listings ([list_courts],
    [list_tournaments], [leaderboard], [player_directory]).

    Conventions.
    - A [datetime] is the integer BSON stores for it: milliseconds since the
      epoch, compared as integers by [$lt] and [$gt].
    - A stored document is a Python [dict]: a finite map from field names
      to BSON values.
    - A collection is the list of its documents in insertion order; a
      cursor of the driver without a sort yields them in that order. The
      order in which the gateway's [get_documents] hands back its matches
      is not stated anywhere; the booking listing takes it as a parameter.
    - The handlers run against a connected database ([db] is not [None]). *)

From stdpp Require Import base gmap list strings pretty sorting.
From Stdlib Require Import ZArith Ascii.

(** ** BSON values and documents *)

Inductive value :=
| VStr (s : string)
| VDate (t : Z)
| VOid (n : nat).

#[global] Instance value_eq_dec : EqDecision value.
Proof. solve_decision. Defined.

Abbreviation document := (gmap string value).

(** ** Query filters, as far as the handlers build them

    [FEq k v] is the entry [{k: v}], [FLt k t] is [{k: {"$lt": t}}] and
    [FGt k t] is [{k: {"$gt": t}}] for a datetime [t]; [FAnd] is a dict
    with several entries; [FOr] is [{"$or": [...]}]. A comparison with a
    datetime only matches fields that hold a datetime. *)

#[local] Unset Elimination Schemes.
Inductive query :=
| FEq (k : string) (v : value)
| FLt (k : string) (t : Z)
| FGt (k : string) (t : Z)
| FAnd (qs : list query)
| FOr (qs : list query).
#[local] Set Elimination Schemes.

Fixpoint matches (q : query) (d : document) : bool :=
  match q with
  | FEq k v => bool_decide (d !! k = Some v)
  | FLt k t =>
      match d !! k with
      | Some (VDate x) => bool_decide (x < t)%Z
      | _ => false
      end
  | FGt k t =>
      match d !! k with
      | Some (VDate x) => bool_decide (t < x)%Z
      | _ => false
      end
  | FAnd qs => forallb (fun q' => matches q' d) qs
  | FOr qs => existsb (fun q' => matches q' d) qs
  end.

(** [db.<collection>.find(q)], read into a list. *)
Definition find (q : query) (c : list document) : list document :=
  List.filter (matches q) c.

(** ** Handler results *)

Inductive response (A : Type) :=
| Return (a : A)
| HTTPException (status_code : nat) (detail : string).
Arguments Return {A} a.
Arguments HTTPException {A} status_code detail.

(** ** Process state: the token map and the [booking] collection *)

Record session := {
  user_id : string;
  role : string;
  email : string;
  name : option string
}.

Record state := {
  TOKENS : gmap string session;
  booking : list document
}.

Definition get_current_user (s : state) (token : string) : response session :=
  match TOKENS s !! token with
  | None => HTTPException 401 "Invalid token"
  | Some u => Return u
  end.

(** ** The persistence helpers

    An [ObjectId] is a number; the store hands out one that no document of
    the collection carries yet. *)

Definition oid_of (d : document) : nat :=
  match d !! "_id" with
  | Some (VOid n) => n
  | _ => 0
  end.

Definition fresh_oid (c : list document) : nat :=
  S (foldr Nat.max 0 (oid_of <$> c)).

(** Modelled from the spec: [create_document] of the [database] module is
    not part of the sources. The Persistence Gateway's
    [Create(kind, document) -> id] "assigns a new unique identity, stores
    the document [...], returns the identity"; the creation time it may add
    is "not guaranteed in source" and is left out. *)
Definition create_document (c : list document) (data : document)
  : nat * list document :=
  let _id := fresh_oid c in
  (_id, c ++ [<["_id" := VOid _id]> data]).

(** Modelled from the spec: [get_documents] of the [database] module is not
    part of the sources. The Persistence Gateway's
    [List(kind, filter?) -> sequence of document] "returns matching
    documents; filter is an equality/range predicate map". The contract
    states no order: [list_order] is the order in which the gateway hands
    the matches back, whatever it is. *)
Definition get_documents (list_order : list document → list document)
    (c : list document) (filter_dict : query) : list document :=
  list_order (find filter_dict c).

(** ** Courts and booking *)

Record BookingIn := {
  court_id : string;
  start_time : Z;
  end_time : Z
}.

Definition model_dump (payload : BookingIn) : document :=
  <["court_id" := VStr (court_id payload)]>
    (<["start_time" := VDate (start_time payload)]>
       (<["end_time" := VDate (end_time payload)]> ∅)).

(** The filter of the conflict check in [create_booking]. *)
Definition overlap_query (payload : BookingIn) : query :=
  FAnd [ FEq "court_id" (VStr (court_id payload));
         FOr [ FAnd [ FLt "start_time" (end_time payload);
                      FGt "end_time" (start_time payload) ] ] ].

Definition create_booking (s : state) (payload : BookingIn) (token : string)
  : response nat * state :=
  match get_current_user s token with
  | HTTPException code detail => (HTTPException code detail, s)
  | Return u =>
      let overlap := find (overlap_query payload) (booking s) in
      match overlap with
      | _ :: _ => (HTTPException 400 "Court already booked for that time", s)
      | [] =>
          let data := model_dump payload in
          let data := <["user_id" := VStr (user_id u)]> data in
          let '(_id, c) := create_document (booking s) data in
          (Return _id, {| TOKENS := TOKENS s; booking := c |})
      end
  end.

Definition my_bookings (list_order : list document → list document)
    (s : state) (token : string) : response (list document) :=
  match get_current_user s token with
  | HTTPException code detail => HTTPException code detail
  | Return u =>
      Return (get_documents list_order (booking s)
                (FAnd [FEq "user_id" (VStr (user_id u))]))
  end.

(** The document that a successful [create_booking] leaves in the store. *)
Definition stored_booking (payload : BookingIn) (u : session) (_id : nat)
  : document :=
  <["_id" := VOid _id]> (<["user_id" := VStr (user_id u)]> (model_dump payload)).

(** ** Vocabulary of the properties *)

Definition on_court (c : string) (d : document) : Prop :=
  d !! "court_id" = Some (VStr c).

Definition spans (d : document) (s e : Z) : Prop :=
  d !! "start_time" = Some (VDate s) ∧ d !! "end_time" = Some (VDate e).

(** The half-open rule between a stored document and a request. *)
Definition conflicts_with (payload : BookingIn) (d : document) : Prop :=
  on_court (court_id payload) d ∧
  ∃ s e, spans d s e ∧ (s < end_time payload)%Z ∧ (start_time payload < e)%Z.

(** The conflicting reservation's id and interval can be read off the error
    of every rejected request. *)
Definition names_conflicting_booking
    (read : response nat → nat * Z * Z) : Prop :=
  ∀ s payload token detail s',
    create_booking s payload token = (HTTPException 400 detail, s') →
    ∃ d sd ed,
      d ∈ booking s ∧ conflicts_with payload d ∧ spans d sd ed ∧
      read (HTTPException 400 detail) = (oid_of d, sd, ed).

(** States reached from [s0] by successful [create_booking] calls only. *)
Inductive reachable (s0 : state) : state → Prop :=
| reachable_init : reachable s0 s0
| reachable_booked s payload token _id s' :
    reachable s0 s →
    create_booking s payload token = (Return _id, s') →
    reachable s0 s'.

(** ** Scenarios

    Two logged-in players and a few requests, used to run the handlers on
    concrete inputs. Times of day are milliseconds after midnight. *)

Definition hhmm (h m : Z) : Z := ((h * 60 + m) * 60000)%Z.

Definition slot (c : string) (t0 t1 : Z) : BookingIn :=
  {| court_id := c; start_time := t0; end_time := t1 |}.

Definition alice : session :=
  {| user_id := "u1"; role := "player";
     email := "alice@club.example"; name := Some "Alice" |}.

Definition bob : session :=
  {| user_id := "u2"; role := "player";
     email := "bob@club.example"; name := None |}.

Definition club0 : state :=
  {| TOKENS := <["tok_u1" := alice]> (<["tok_u2" := bob]> ∅);
     booking := [] |}.

(** The state a handler call leaves behind. *)
Definition after (s : state) (payload : BookingIn) (token : string) : state :=
  (create_booking s payload token).2.

Definition morning : BookingIn := slot "court1" (hhmm 10 0) (hhmm 11 0).
Definition next_hour : BookingIn := slot "court1" (hhmm 11 0) (hhmm 12 0).
Definition inside : BookingIn := slot "court1" (hhmm 10 30) (hhmm 10 45).
Definition backwards : BookingIn := slot "court1" (hhmm 11 0) (hhmm 10 0).
Definition early : BookingIn := slot "court1" (hhmm 9 0) (hhmm 10 0).
Definition late : BookingIn := slot "court1" (hhmm 14 0) (hhmm 15 0).
Definition long_morning : BookingIn := slot "court1" (hhmm 10 15) (hhmm 12 0).

Definition club_morning : state := after club0 morning "tok_u1".
Definition club_touching : state := after club_morning next_hour "tok_u2".
Definition club_early_late : state := after (after club0 early "tok_u1") late "tok_u1".

(** A booking written with the [Booking] schema and since cancelled. *)
Definition cancelled_morning : document :=
  <["status" := VStr "cancelled"]> (stored_booking morning alice 1).

Definition club_cancelled : state :=
  {| TOKENS := TOKENS club0; booking := [cancelled_morning] |}.

Definition club_long_morning : state :=
  {| TOKENS := TOKENS club0; booking := [stored_booking long_morning bob 7] |}.

(** * The rest of the API: accounts, courts, tournaments, results

    The collections other than [booking] are written from Pydantic models
    ([schemas.py]: "each Pydantic model name maps to a MongoDB collection"),
    so their documents are records of the model's fields, stored under an
    [ObjectId]. *)

Record stored (A : Type) := Stored { doc_id : nat; fields : A }.
Arguments Stored {A} doc_id fields.
Arguments doc_id {A} _.
Arguments fields {A} _.

(** [str] of an [ObjectId]: an injective rendering of the number (the
    driver prints 24 hexadecimal digits). *)
Definition oid_str (n : nat) : string := pretty n.

Module Typed.

Definition fresh_oid {A} (c : list (stored A)) : nat :=
  S (foldr Nat.max 0 (doc_id <$> c)).

(** Modelled from the spec: [create_document] of the [database] module,
    at a collection of model records. [Create(kind, document) -> id]
    "assigns a new unique identity, stores the document [...], returns
    the identity". *)
Definition create_document {A} (c : list (stored A)) (data : A)
  : nat * list (stored A) :=
  let _id := fresh_oid c in
  (_id, c ++ [Stored _id data]).

(** Modelled from the spec: [get_documents] of the [database] module,
    called without a filter: [List(kind, filter?)] "returns matching
    documents". *)
Definition get_documents {A} (c : list (stored A)) : list (stored A) := c.

(** [collection.find(q)], [collection.find_one(q)] and
    [collection.update_one(q, {"$set": ...})] of the driver: the matching
    documents in order, the first of them, and a change of the first of
    them. *)
Definition find {A} (q : stored A → bool) (c : list (stored A))
  : list (stored A) :=
  List.filter q c.

Definition find_one {A} (q : stored A → bool) (c : list (stored A))
  : option (stored A) :=
  head (find q c).

Fixpoint update_one {A} (q : stored A → bool) (set : A → A)
    (c : list (stored A)) : list (stored A) :=
  match c with
  | [] => []
  | d :: c' =>
      if q d then Stored (doc_id d) (set (fields d)) :: c'
      else d :: update_one q set c'
  end.

(** The filter [{"_id": ObjectId(i)}]. *)
Definition by_id {A} (i : nat) (d : stored A) : bool :=
  bool_decide (doc_id d = i).

End Typed.

(** ** [schemas.User] *)

Module User.

Inductive Role := player | admin.
Inductive Level := beginner | intermediate | advanced | pro.
Inductive pref := PStr (s : string) | PBool (b : bool).

#[global] Instance Role_eq_dec : EqDecision Role.
Proof. solve_decision. Defined.
#[global] Instance Level_eq_dec : EqDecision Level.
Proof. solve_decision. Defined.

Definition role_str (r : Role) : string :=
  match r with player => "player" | admin => "admin" end.

Definition level_str (l : Level) : string :=
  match l with
  | beginner => "beginner" | intermediate => "intermediate"
  | advanced => "advanced" | pro => "pro"
  end.

Record t := {
  email : string;
  name : string;
  role : Role;
  rating : option Z;
  level : option Level;
  bio : option string;
  avatar_url : option string;
  preferences : gmap string pref
}.

(** [User(email=..., name=..., role=...)]: the other fields take the
    defaults of the schema. *)
Definition make (email name : string) (role : Role) : t :=
  {| email := email; name := name; role := role;
     rating := Some 1200%Z;
     level := Some beginner;
     bio := Some "";
     avatar_url := None;
     preferences := <["language" := PStr "en"]>
                      (<["notifications" := PBool true]> ∅) |}.

Definition set_role (r : Role) (u : t) : t :=
  {| email := email u; name := name u; role := r;
     rating := rating u; level := level u; bio := bio u;
     avatar_url := avatar_url u; preferences := preferences u |}.

(** The filter [{"email": e}]. *)
Definition by_email (e : string) (d : stored t) : bool :=
  bool_decide (email (fields d) = e).

End User.

Module LoginRequest.
Record t := {
  email : string;
  name : option string;
  role : User.Role
}.
End LoginRequest.

Module LoginResponse.
Record t := {
  token : string;
  role : string;
  user_id : string
}.
End LoginResponse.

(** ** Request models of the admin and result handlers *)

Inductive Surface := hard | clay | grass | carpet.

Module CourtIn.
Record t := {
  name : string;
  surface : Surface;
  indoor : bool
}.
End CourtIn.

Module TournamentIn.
Record t := {
  title : string;
  level : option string;
  start_date : Z;
  end_date : Z;
  description : option string
}.
End TournamentIn.

Module ResultIn.
Record t := {
  player1_id : string;
  player2_id : string;
  winner_id : string;
  score : string;
  tournament_id : option string;
  played_at : Z
}.
End ResultIn.

(** ** The whole process state

    [core] is the token map and the [booking] collection of the booking
    handlers; the other fields are [db.user], [db.court], [db.tournament]
    and [db.matchresult]. *)

Record club := {
  core : state;
  db_user : list (stored User.t);
  db_court : list (stored CourtIn.t);
  db_tournament : list (stored TournamentIn.t);
  db_matchresult : list (stored ResultIn.t)
}.

Definition set_core (w : club) (s : state) : club :=
  {| core := s; db_user := db_user w; db_court := db_court w;
     db_tournament := db_tournament w; db_matchresult := db_matchresult w |}.

Definition set_db_user (w : club) (c : list (stored User.t)) : club :=
  {| core := core w; db_user := c; db_court := db_court w;
     db_tournament := db_tournament w; db_matchresult := db_matchresult w |}.

Definition set_db_court (w : club) (c : list (stored CourtIn.t)) : club :=
  {| core := core w; db_user := db_user w; db_court := c;
     db_tournament := db_tournament w; db_matchresult := db_matchresult w |}.

Definition set_db_tournament (w : club) (c : list (stored TournamentIn.t))
  : club :=
  {| core := core w; db_user := db_user w; db_court := db_court w;
     db_tournament := c; db_matchresult := db_matchresult w |}.

Definition set_db_matchresult (w : club) (c : list (stored ResultIn.t))
  : club :=
  {| core := core w; db_user := db_user w; db_court := db_court w;
     db_tournament := db_tournament w; db_matchresult := c |}.

(** ** Auth *)

(** [email.split("@")[0]]: what stands before the first [@]. *)
Fixpoint before_at (s : string) : string :=
  match s with
  | EmptyString => EmptyString
  | String a rest =>
      if Ascii.eqb a "@"%char then EmptyString else String a (before_at rest)
  end.

(** [payload.name or payload.email.split("@")[0]]: [None] and the empty
    string are falsy. *)
Definition name_or_local_part (name : option string) (email : string)
  : string :=
  match name with
  | Some n => if bool_decide (n = "") then before_at email else n
  | None => before_at email
  end.

(** [bool(db)], the truth test in [... if db else []] of [login]. [db] is
    the driver's [Database] (the handlers run against a connected
    database), and a [Database] does not implement truth value testing: it
    raises [NotImplementedError] and asks to compare with [None] instead,
    as [test_database] does. The framework answers an exception that no
    handler catches with 500. *)
Definition Database_bool : response bool :=
  HTTPException 500 "Internal Server Error".

(** [login]. The truth test of [db] comes first, before anything is read or
    written. The role of the request is one of two non-empty literals, so
    [payload.role and ...] is decided by the comparison alone. When
    [find_one] returns [None], [user.get] raises and the framework answers
    500. *)
Definition login (w : club) (payload : LoginRequest.t)
  : response LoginResponse.t * club :=
  match Database_bool with
  | HTTPException code detail => (HTTPException code detail, w)
  | Return db_is_true =>
  let existing :=
    if db_is_true
    then take 1 (Typed.find (User.by_email (LoginRequest.email payload)) (db_user w))
    else [] in
  let '(user, users) :=
    match existing with
    | u :: _ => (Some u, db_user w)
    | [] =>
        let user_model :=
          User.make (LoginRequest.email payload)
            (name_or_local_part (LoginRequest.name payload)
               (LoginRequest.email payload))
            (LoginRequest.role payload) in
        let '(_id, c) := Typed.create_document (db_user w) user_model in
        (Typed.find_one (Typed.by_id _id) c, c)
    end in
  match user with
  | None => (HTTPException 500 "Internal Server Error", set_db_user w users)
  | Some u =>
      let '(u, users) :=
        if bool_decide (User.role (fields u) ≠ LoginRequest.role payload)
        then (Stored (doc_id u) (User.set_role (LoginRequest.role payload) (fields u)),
              Typed.update_one (Typed.by_id (doc_id u))
                (User.set_role (LoginRequest.role payload)) users)
        else (u, users) in
      let token := "tok_" +:+ oid_str (doc_id u) in
      let entry :=
        {| user_id := oid_str (doc_id u);
           role := User.role_str (User.role (fields u));
           email := User.email (fields u);
           name := Some (User.name (fields u)) |} in
      (Return {| LoginResponse.token := token;
                 LoginResponse.role := role entry;
                 LoginResponse.user_id := user_id entry |},
       set_core (set_db_user w users)
         {| TOKENS := <[token := entry]> (TOKENS (core w));
            booking := booking (core w) |})
  end
  end.


(** ** Courts, tournaments and results *)

Definition create_court (w : club) (payload : CourtIn.t) (token : string)
  : response nat * club :=
  match get_current_user (core w) token with
  | HTTPException code detail => (HTTPException code detail, w)
  | Return user =>
      if bool_decide (role user ≠ "admin")
      then (HTTPException 403 "Admins only", w)
      else
        let '(_id, c) := Typed.create_document (db_court w) payload in
        (Return _id, set_db_court w c)
  end.

Definition list_courts (w : club) : list (stored CourtIn.t) :=
  Typed.get_documents (db_court w).

Definition create_tournament (w : club) (payload : TournamentIn.t)
    (token : string) : response nat * club :=
  match get_current_user (core w) token with
  | HTTPException code detail => (HTTPException code detail, w)
  | Return user =>
      if bool_decide (role user ≠ "admin")
      then (HTTPException 403 "Admins only", w)
      else
        let '(_id, c) := Typed.create_document (db_tournament w) payload in
        (Return _id, set_db_tournament w c)
  end.

Definition list_tournaments (w : club) : list (stored TournamentIn.t) :=
  Typed.get_documents (db_tournament w).

Definition submit_result (w : club) (payload : ResultIn.t) (token : string)
  : response nat * club :=
  match get_current_user (core w) token with
  | HTTPException code detail => (HTTPException code detail, w)
  | Return _ =>
      let '(_id, c) := Typed.create_document (db_matchresult w) payload in
      (Return _id, set_db_matchresult w c)
  end.

(** The booking handlers, run on the whole state. *)
Definition club_create_booking (w : club) (payload : BookingIn)
    (token : string) : response nat * club :=
  let '(r, s) := create_booking (core w) payload token in
  (r, set_core w s).

Definition club_my_bookings (list_order : list document → list document)
    (w : club) (token : string) : response (list document) :=
  my_bookings list_order (core w) token.

(** ** Leaderboard and player directory *)

Module LeaderboardRow.
Record t := {
  _id : string;
  name : string;
  rating : option Z;
  level : option string
}.
End LeaderboardRow.

Module DirectoryRow.
Record t := {
  _id : string;
  name : string;
  level : option string;
  rating : option Z;
  avatar_url : option string
}.
End DirectoryRow.

(** The order of [sort("rating", -1)] read backwards: a missing rating
    ([null]) is below every number. *)
Definition rating_le (x y : option Z) : Prop :=
  match x, y with
  | None, _ => True
  | Some _, None => False
  | Some a, Some b => (a ≤ b)%Z
  end.

Definition by_rating_desc (a b : stored User.t) : Prop :=
  rating_le (User.rating (fields b)) (User.rating (fields a)).

#[global] Instance rating_le_dec x y : Decision (rating_le x y).
Proof. destruct x, y; cbn; apply _. Defined.

#[global] Instance by_rating_desc_dec a b : Decision (by_rating_desc a b).
Proof. unfold by_rating_desc. apply _. Defined.

(** [flt] of [leaderboard] and [player_directory] without the name
    pattern: the role [player], and the level when one is given and not
    empty ([if level:]). *)
Definition player_filter (level : option string) (d : stored User.t) : bool :=
  bool_decide (User.role (fields d) = User.player) &&
  match level with
  | Some (String a l) =>
      bool_decide (User.level_str <$> User.level (fields d) = Some (String a l))
  | _ => true
  end.

(** [cursor.sort("rating", -1)]. The server orders equal ratings as it
    likes; here they keep the order of the collection. *)
Definition sort_rating_desc (c : list (stored User.t)) : list (stored User.t) :=
  merge_sort by_rating_desc c.

Section Cursor.

(** How many documents the first batch of a reply holds at most, and the
    server's regular expressions with option [i]: the text predicate of a
    pattern, or [None] for a pattern the server rejects. *)
Variable first_batch : nat.
Variable regex : string → option (string → bool).

(** [cursor.limit(n)]: no limit for 0, the first [n] documents for a
    positive [n], and for a negative [n] a single batch of at most [-n]
    documents. *)
Definition cursor_limit {A} (n : Z) (l : list A) : list A :=
  if bool_decide (n = 0)%Z then l
  else if bool_decide (0 < n)%Z then take (Z.to_nat n) l
  else take (Z.to_nat (- n) `min` first_batch) l.

Definition leaderboard_row (p : stored User.t) : LeaderboardRow.t :=
  {| LeaderboardRow._id := oid_str (doc_id p);
     LeaderboardRow.name := User.name (fields p);
     LeaderboardRow.rating := User.rating (fields p);
     LeaderboardRow.level := User.level_str <$> User.level (fields p) |}.

Definition leaderboard (w : club) (level : option string) (limit : Z)
  : list LeaderboardRow.t :=
  let flt := player_filter level in
  let players :=
    cursor_limit limit (sort_rating_desc (Typed.find flt (db_user w))) in
  leaderboard_row <$> players.

Definition directory_row (u : stored User.t) : DirectoryRow.t :=
  {| DirectoryRow._id := oid_str (doc_id u);
     DirectoryRow.name := User.name (fields u);
     DirectoryRow.level := User.level_str <$> User.level (fields u);
     DirectoryRow.rating := User.rating (fields u);
     DirectoryRow.avatar_url := User.avatar_url (fields u) |}.

(** [player_directory]. A pattern the server rejects makes [find] raise,
    and the framework answers 500. *)
Definition player_directory (w : club) (q level : option string) (limit : Z)
  : response (list DirectoryRow.t) :=
  match q with
  | Some (String a pattern) =>
      match regex (String a pattern) with
      | None => HTTPException 500 "Internal Server Error"
      | Some name_matches =>
          let flt d := player_filter level d && name_matches (User.name (fields d)) in
          let users := cursor_limit limit (Typed.find flt (db_user w)) in
          Return (directory_row <$> users)
      end
  | _ =>
      let flt := player_filter level in
      let users := cursor_limit limit (Typed.find flt (db_user w)) in
      Return (directory_row <$> users)
  end.

End Cursor.

(** ** Vocabulary of the properties of the rest of the API *)


Definition ids {A} (c : list (stored A)) : list nat := doc_id <$> c.



(** The requests that write, and what a sequence of them leaves behind. *)
Inductive request :=
| Login (payload : LoginRequest.t)
| CreateCourt (payload : CourtIn.t) (token : string)
| CreateTournament (payload : TournamentIn.t) (token : string)
| SubmitResult (payload : ResultIn.t) (token : string)
| CreateBooking (payload : BookingIn) (token : string).

Definition handle (w : club) (r : request) : club :=
  match r with
  | Login payload => (login w payload).2
  | CreateCourt payload token => (create_court w payload token).2
  | CreateTournament payload token => (create_tournament w payload token).2
  | SubmitResult payload token => (submit_result w payload token).2
  | CreateBooking payload token => (club_create_booking w payload token).2
  end.

Definition run (w : club) (rs : list request) : club := foldl handle w rs.

(** ** Scenarios for the rest of the API *)

Definition empty_club : club :=
  {| core := {| TOKENS := ∅; booking := [] |};
     db_user := []; db_court := []; db_tournament := []; db_matchresult := [] |}.

Definition carol_admin : LoginRequest.t :=
  {| LoginRequest.email := "carol@club.example";
     LoginRequest.name := None;
     LoginRequest.role := User.admin |}.

Definition dave_player : LoginRequest.t :=
  {| LoginRequest.email := "dave@club.example";
     LoginRequest.name := Some "Dave";
     LoginRequest.role := User.player |}.

Definition centre_court : CourtIn.t :=
  {| CourtIn.name := "Centre"; CourtIn.surface := grass; CourtIn.indoor := false |}.

Definition spring_open : TournamentIn.t :=
  {| TournamentIn.title := "Spring Open";
     TournamentIn.level := None;
     TournamentIn.start_date := hhmm 9 0;
     TournamentIn.end_date := hhmm 18 0;
     TournamentIn.description := None |}.

Definition a_day : list request :=
  [ Login carol_admin;
    Login dave_player;
    CreateCourt centre_court "tok_1";
    CreateBooking morning "tok_2";
    CreateBooking inside "tok_1";
    CreateBooking next_hour "tok_1";
    Login carol_admin ].


(** A club in which two players and an admin hold sessions. *)
Definition greta : session :=
  {| user_id := "u7"; role := "admin";
     email := "greta@club.example"; name := Some "Greta" |}.

Definition club_staffed : club :=
  {| core := {| TOKENS := <["tok_u7" := greta]> (TOKENS club0); booking := [] |};
     db_user := []; db_court := []; db_tournament := []; db_matchresult := [] |}.

Definition a_result : ResultIn.t :=
  {| ResultIn.player1_id := "u3"; ResultIn.player2_id := "u4";
     ResultIn.winner_id := "u5"; ResultIn.score := "6-4 6-3";
     ResultIn.tournament_id := None; ResultIn.played_at := hhmm 16 0 |}.

Definition busy_day : list request :=
  [ Login carol_admin;
    CreateCourt centre_court "tok_u1";
    CreateCourt centre_court "tok_u7";
    CreateBooking morning "tok_u1";
    CreateBooking inside "tok_u2";
    CreateBooking next_hour "tok_u2";
    SubmitResult a_result "tok_u2";
    CreateTournament spring_open "tok_1" ].

(** A club with three players and an admin, for the listings. *)
Definition rated (i : nat) (n : string) (r : User.Role) (x : option Z)
    (l : option User.Level) : stored User.t :=
  Stored i {| User.email := n +:+ "@club.example"; User.name := n;
              User.role := r; User.rating := x; User.level := l;
              User.bio := None; User.avatar_url := None;
              User.preferences := ∅ |}.

Definition rated_club : club :=
  {| core := core empty_club;
     db_user := [ rated 1 "ann" User.player (Some 1500%Z) (Some User.advanced);
                  rated 2 "root" User.admin (Some 2900%Z) (Some User.pro);
                  rated 3 "ben" User.player None None;
                  rated 4 "cy" User.player (Some 1800%Z) (Some User.advanced) ];
     db_court := []; db_tournament := []; db_matchresult := [] |}.

(** ** Helper lemmas *)

Lemma matches_overlap_query payload d :
  matches (overlap_query payload) d = true ↔ conflicts_with payload d.
Proof.
  unfold conflicts_with, on_court, spans. cbn [overlap_query matches forallb existsb].
  rewrite !andb_true_r, orb_false_r, andb_true_iff, andb_true_iff, bool_decide_eq_true.
  split.
  - intros [Hc [Hs He]]. split; [done|].
    destruct (d !! "start_time") as [[|s|]|]; try done.
    destruct (d !! "end_time") as [[|e|]|]; try done.
    apply bool_decide_eq_true in Hs, He. by exists s, e.
  - intros [Hc (s & e & [-> ->] & Hs & He)].
    by rewrite !bool_decide_eq_true.
Qed.

Lemma elem_of_find q c d : d ∈ find q c ↔ d ∈ c ∧ matches q d = true.
Proof. unfold find. rewrite !list_elem_of_In. apply filter_In. Qed.

Lemma find_nil q c : find q c = [] ↔ ∀ d, d ∈ c → matches q d = false.
Proof.
  split.
  - intros Hnil d Hd. destruct (matches q d) eqn:Hm; [|done].
    assert (d ∈ find q c) as Hin by (by apply elem_of_find).
    rewrite Hnil in Hin. by apply not_elem_of_nil in Hin.
  - intros Hnone. destruct (find q c) as [|d l] eqn:Hf; [done|].
    assert (d ∈ find q c) as [Hd Hm]%elem_of_find by (rewrite Hf; left).
    by rewrite (Hnone d Hd) in Hm.
Qed.

Lemma get_current_user_Some s token u :
  TOKENS s !! token = Some u → get_current_user s token = Return u.
Proof. unfold get_current_user. by intros ->. Qed.

Lemma get_current_user_None s token :
  TOKENS s !! token = None →
  get_current_user s token = HTTPException 401 "Invalid token".
Proof. unfold get_current_user. by intros ->. Qed.

(** The three ways through [create_booking]. *)

Lemma create_booking_invalid_token s payload token :
  TOKENS s !! token = None →
  create_booking s payload token = (HTTPException 401 "Invalid token", s).
Proof. intros H. unfold create_booking. by rewrite (get_current_user_None _ _ H). Qed.

Lemma create_booking_conflict s payload token u d :
  TOKENS s !! token = Some u →
  d ∈ booking s →
  conflicts_with payload d →
  create_booking s payload token
  = (HTTPException 400 "Court already booked for that time", s).
Proof.
  intros Hu Hd Hc. unfold create_booking.
  rewrite (get_current_user_Some _ _ _ Hu). cbv zeta.
  destruct (find (overlap_query payload) (booking s)) eqn:Hf; [|done].
  pose proof (proj1 (find_nil _ _) Hf d Hd) as Hm.
  apply matches_overlap_query in Hc. congruence.
Qed.

Lemma create_booking_free s payload token u :
  TOKENS s !! token = Some u →
  (∀ d, d ∈ booking s → ¬ conflicts_with payload d) →
  create_booking s payload token
  = (Return (fresh_oid (booking s)),
     {| TOKENS := TOKENS s;
        booking := booking s
                   ++ [stored_booking payload u (fresh_oid (booking s))] |}).
Proof.
  intros Hu Hfree. unfold create_booking.
  rewrite (get_current_user_Some _ _ _ Hu). cbv zeta.
  assert (find (overlap_query payload) (booking s) = []) as ->; [|done].
  apply find_nil. intros d Hd. specialize (Hfree d Hd).
  rewrite <- matches_overlap_query in Hfree. by destruct (matches _ d).
Qed.

Lemma conflict_dec s payload :
  (∃ d, d ∈ booking s ∧ conflicts_with payload d) ∨
  (∀ d, d ∈ booking s → ¬ conflicts_with payload d).
Proof.
  destruct (find (overlap_query payload) (booking s)) as [|d l] eqn:Hf.
  - right. intros d Hd Hc. pose proof (proj1 (find_nil _ _) Hf d Hd) as Hm.
    apply matches_overlap_query in Hc. congruence.
  - left. exists d.
    assert (d ∈ find (overlap_query payload) (booking s)) as [? ?]%elem_of_find
      by (rewrite Hf; left).
    by rewrite <- matches_overlap_query.
Qed.

Lemma create_booking_Return_inv s payload token _id s' :
  create_booking s payload token = (Return _id, s') →
  ∃ u, TOKENS s !! token = Some u ∧
       (∀ d, d ∈ booking s → ¬ conflicts_with payload d) ∧
       _id = fresh_oid (booking s) ∧
       s' = {| TOKENS := TOKENS s;
               booking := booking s ++ [stored_booking payload u _id] |}.
Proof.
  intros H. destruct (TOKENS s !! token) as [u|] eqn:Hu.
  - destruct (conflict_dec s payload) as [(d & Hd & Hc)|Hfree].
    + by rewrite (create_booking_conflict _ _ _ _ _ Hu Hd Hc) in H.
    + rewrite (create_booking_free _ _ _ _ Hu Hfree) in H.
      injection H as <- <-. by exists u.
  - by rewrite (create_booking_invalid_token _ _ _ Hu) in H.
Qed.

Lemma create_booking_Exception_inv s payload token code detail s' :
  create_booking s payload token = (HTTPException code detail, s') →
  s' = s ∧
  ((code = 401 ∧ detail = "Invalid token" ∧ TOKENS s !! token = None) ∨
   (code = 400 ∧ detail = "Court already booked for that time" ∧
    ∃ u d, TOKENS s !! token = Some u ∧ d ∈ booking s ∧ conflicts_with payload d)).
Proof.
  intros H. destruct (TOKENS s !! token) as [u|] eqn:Hu.
  - destruct (conflict_dec s payload) as [(d & Hd & Hc)|Hfree].
    + rewrite (create_booking_conflict _ _ _ _ _ Hu Hd Hc) in H.
      injection H as <- <- <-. split; [done|]. right. eauto 10.
    + by rewrite (create_booking_free _ _ _ _ Hu Hfree) in H.
  - rewrite (create_booking_invalid_token _ _ _ Hu) in H.
    injection H as <- <- <-. split; [done|]. by left.
Qed.

(** What a stored booking holds. *)

Lemma stored_booking_court payload u _id :
  on_court (court_id payload) (stored_booking payload u _id).
Proof. unfold on_court, stored_booking, model_dump. by simplify_map_eq. Qed.

Lemma stored_booking_spans payload u _id :
  spans (stored_booking payload u _id) (start_time payload) (end_time payload).
Proof. unfold spans, stored_booking, model_dump. by simplify_map_eq. Qed.

Lemma stored_booking_user payload u _id :
  stored_booking payload u _id !! "user_id" = Some (VStr (user_id u)).
Proof. unfold stored_booking, model_dump. by simplify_map_eq. Qed.

Lemma stored_booking_oid payload u _id :
  oid_of (stored_booking payload u _id) = _id.
Proof. unfold oid_of, stored_booking. by simplify_map_eq. Qed.

Lemma on_court_inj c c' d : on_court c d → on_court c' d → c = c'.
Proof. unfold on_court. congruence. Qed.

Lemma spans_inj d s e s' e' : spans d s e → spans d s' e' → s = s' ∧ e = e'.
Proof. unfold spans. intros [? ?] [? ?]. split; congruence. Qed.

Lemma conflicts_with_stored payload q u _id :
  conflicts_with payload (stored_booking q u _id) ↔
  court_id q = court_id payload ∧
  (start_time q < end_time payload)%Z ∧ (start_time payload < end_time q)%Z.
Proof.
  unfold conflicts_with. split.
  - intros [Hc (s & e & Hse & Hs & He)].
    pose proof (on_court_inj _ _ _ (stored_booking_court q u _id) Hc).
    destruct (spans_inj _ _ _ _ _ (stored_booking_spans q u _id) Hse) as [<- <-].
    done.
  - intros (Hc & Hs & He). split.
    + rewrite <- Hc. apply stored_booking_court.
    + exists (start_time q), (end_time q). split; [apply stored_booking_spans|done].
Qed.

(** From an empty collection, every document is one [create_booking] stored. *)
Lemma reachable_stored s0 s :
  booking s0 = [] → reachable s0 s →
  ∀ d, d ∈ booking s → ∃ payload u _id, d = stored_booking payload u _id.
Proof.
  intros H0 Hr. induction Hr as [|s payload token _id s' _ IH Hstep].
  - intros d. rewrite H0. by intros ?%not_elem_of_nil.
  - apply create_booking_Return_inv in Hstep as (u & _ & _ & _ & ->). simpl.
    intros d [Hd|Hd%list_elem_of_singleton]%elem_of_app; subst; eauto.
Qed.

Lemma fresh_oid_above c d : d ∈ c → oid_of d < fresh_oid c.
Proof.
  unfold fresh_oid. induction c as [|x c IH].
  - by intros ?%not_elem_of_nil.
  - rewrite fmap_cons. cbn [foldr].
    intros [->|Hd]%elem_of_cons; [lia|]. specialize (IH Hd). lia.
Qed.

(** ** Running the scenarios *)

Example club0_morning :
  create_booking club0 morning "tok_u1"
  = (Return 1, {| TOKENS := TOKENS club0;
                  booking := [stored_booking morning alice 1] |}).
Proof. reflexivity. Qed.

Example club_morning_next_hour :
  create_booking club_morning next_hour "tok_u2"
  = (Return 2, {| TOKENS := TOKENS club0;
                  booking := [stored_booking morning alice 1;
                              stored_booking next_hour bob 2] |}).
Proof. reflexivity. Qed.

Example club_morning_inside :
  create_booking club_morning inside "tok_u2"
  = (HTTPException 400 "Court already booked for that time", club_morning).
Proof. reflexivity. Qed.

Example club0_no_token :
  create_booking club0 morning "tok_u9"
  = (HTTPException 401 "Invalid token", club0).
Proof. reflexivity. Qed.

(** ** The no-double-booking invariant *)

(** C1. Starting from an empty [booking] collection, after any sequence of
    successful [create_booking] calls, any two distinct stored reservations
    have different ids, each carry a court and an interval, and when they
    are on the same court their half-open intervals do not overlap:
    [not (a.start < b.end and b.start < a.end)]. The documents
    [create_booking] writes carry no [status] field, so this covers every
    pair of stored reservations, the confirmed ones among them. *)
Theorem confirmed_bookings_never_overlap s0 s :
  booking s0 = [] →
  reachable s0 s →
  ∀ i j a b,
    i ≠ j → booking s !! i = Some a → booking s !! j = Some b →
    oid_of a ≠ oid_of b ∧
    ∃ ca sa ea cb sb eb,
      on_court ca a ∧ spans a sa ea ∧ on_court cb b ∧ spans b sb eb ∧
      (ca = cb → ¬ (sa < eb ∧ sb < ea)%Z).
Proof.
  intros H0 Hr.
  induction Hr as [|s payload token _id s' Hr IH Hstep].
  - intros i j a b _. by rewrite H0.
  - pose proof (reachable_stored _ _ H0 Hr) as Hold.
    apply create_booking_Return_inv in Hstep as (u & _ & Hfree & -> & ->).
    cbn [booking] in *.
    intros i j a b Hij
      [[Hi Ha]|[Hi Ha]]%lookup_snoc_Some [[Hj Hb]|[Hj Hb]]%lookup_snoc_Some.
    + by apply (IH i j).
    + (* [a] was there, [b] is the new one *)
      assert (a ∈ booking s) as Hin by (by eapply list_elem_of_lookup_2).
      pose proof (fresh_oid_above _ _ Hin) as Hlt.
      destruct (Hold a Hin) as (q & v & n & ->). subst b.
      split; [rewrite (stored_booking_oid payload); lia|].
      exists (court_id q), (start_time q), (end_time q),
             (court_id payload), (start_time payload), (end_time payload).
      repeat split;
        try apply stored_booking_court; try apply stored_booking_spans.
      intros Hc [Hs He]. apply (Hfree _ Hin).
      by apply conflicts_with_stored.
    + (* [a] is the new one, [b] was there *)
      assert (b ∈ booking s) as Hin by (by eapply list_elem_of_lookup_2).
      pose proof (fresh_oid_above _ _ Hin) as Hlt.
      destruct (Hold b Hin) as (q & v & n & ->). subst a.
      split; [rewrite (stored_booking_oid payload); lia|].
      exists (court_id payload), (start_time payload), (end_time payload),
             (court_id q), (start_time q), (end_time q).
      repeat split;
        try apply stored_booking_court; try apply stored_booking_spans.
      intros Hc [Hs He]. apply (Hfree _ Hin).
      by apply conflicts_with_stored.
    + lia.
Qed.

Lemma club_touching_reachable : reachable club0 club_touching.
Proof.
  eapply reachable_booked; [eapply reachable_booked; [apply reachable_init|]|].
  - exact club0_morning.
  - exact club_morning_next_hour.
Defined.

Lemma confirmed_bookings_never_overlap_witness :
  oid_of (stored_booking morning alice 1) ≠ oid_of (stored_booking next_hour bob 2) ∧
  ∃ ca sa ea cb sb eb,
    on_court ca (stored_booking morning alice 1) ∧
    spans (stored_booking morning alice 1) sa ea ∧
    on_court cb (stored_booking next_hour bob 2) ∧
    spans (stored_booking next_hour bob 2) sb eb ∧
    (ca = cb → ¬ (sa < eb ∧ sb < ea)%Z).
Proof.
  apply (confirmed_bookings_never_overlap club0 club_touching eq_refl
           club_touching_reachable 0 1);
    [lia | reflexivity | reflexivity].
Defined.

(** ** Writes *)

(** C2. [create_booking] writes to the store exactly once when it succeeds:
    the [booking] collection afterwards is the one before with the new
    document appended, and nothing else changes. When it fails, with
    whatever status code, the state afterwards is the state before. *)
Theorem create_booking_writes_once_or_never s payload token :
  match create_booking s payload token with
  | (Return _id, s') =>
      ∃ u, get_current_user s token = Return u ∧
           TOKENS s' = TOKENS s ∧
           booking s' = booking s ++ [stored_booking payload u _id] ∧
           length (booking s') = S (length (booking s))
  | (HTTPException code detail, s') => s' = s
  end.
Proof.
  destruct (create_booking s payload token) as [[_id|code detail] s'] eqn:H.
  - apply create_booking_Return_inv in H as (u & Hu & _ & _ & ->).
    exists u. cbn [TOKENS booking]. rewrite length_app. cbn [length].
    split; [by apply get_current_user_Some|]. repeat split. lia.
  - by apply create_booking_Exception_inv in H as [-> _].
Qed.

(** ** The overlap rule *)

(** C3. For an authenticated caller, [create_booking] succeeds exactly when
    no stored document on the requested court satisfies the half-open rule
    [d.start < req.end and req.start < d.end]. Touching endpoints
    therefore do not conflict: if neither [t0, t1) nor [t1, t2) conflicts
    with what is stored (as on an empty collection), booking [t0, t1) and
    then [t1, t2) on the same court both succeed. *)
Theorem touching_endpoints_do_not_conflict s token u :
  TOKENS s !! token = Some u →
  (∀ payload,
     (∃ _id s', create_booking s payload token = (Return _id, s')) ↔
     (∀ d, d ∈ booking s → ¬ conflicts_with payload d)) ∧
  (∀ c t0 t1 t2,
     (∀ d, d ∈ booking s →
           ¬ conflicts_with (slot c t0 t1) d ∧ ¬ conflicts_with (slot c t1 t2) d) →
     ∃ id1 s1 id2 s2,
       create_booking s (slot c t0 t1) token = (Return id1, s1) ∧
       create_booking s1 (slot c t1 t2) token = (Return id2, s2) ∧
       booking s2 = booking s ++ [stored_booking (slot c t0 t1) u id1;
                                  stored_booking (slot c t1 t2) u id2]).
Proof.
  intros Hu. split.
  - intros payload. split.
    + intros (_id & s' & H).
      by apply create_booking_Return_inv in H as (_ & _ & Hfree & _).
    + intros Hfree. rewrite (create_booking_free _ _ _ _ Hu Hfree). eauto.
  - intros c t0 t1 t2 Hfree.
    assert (∀ d, d ∈ booking s → ¬ conflicts_with (slot c t0 t1) d) as Hfree0
      by (intros d Hd; apply (Hfree d Hd)).
    pose proof (create_booking_free s (slot c t0 t1) token u Hu Hfree0) as H1.
    set (id1 := fresh_oid (booking s)) in H1.
    set (s1 := {| TOKENS := TOKENS s; booking := _ |}) in H1.
    assert (∀ d, d ∈ booking s1 → ¬ conflicts_with (slot c t1 t2) d) as Hfree1.
    { intros d [Hd|Hd%list_elem_of_singleton]%elem_of_app.
      - apply (Hfree d Hd).
      - subst d. rewrite conflicts_with_stored. cbn. lia. }
    pose proof (create_booking_free s1 (slot c t1 t2) token u Hu Hfree1) as H2.
    eexists id1, s1, _, _. split; [exact H1|]. split; [exact H2|].
    cbn [booking s1]. by rewrite <- app_assoc.
Qed.

Lemma touching_endpoints_do_not_conflict_witness :
  ∃ id1 s1 id2 s2,
    create_booking club0 (slot "court1" (hhmm 10 0) (hhmm 11 0)) "tok_u1"
    = (Return id1, s1) ∧
    create_booking s1 (slot "court1" (hhmm 11 0) (hhmm 12 0)) "tok_u1"
    = (Return id2, s2) ∧
    booking s2
    = booking club0
      ++ [stored_booking (slot "court1" (hhmm 10 0) (hhmm 11 0)) alice id1;
          stored_booking (slot "court1" (hhmm 11 0) (hhmm 12 0)) alice id2].
Proof.
  apply (proj2 (touching_endpoints_do_not_conflict club0 "tok_u1" alice eq_refl)).
  intros d Hd. by apply not_elem_of_nil in Hd.
Defined.

(** C4. When the requested interval overlaps a stored reservation on the
    same court, an authenticated [create_booking] call fails with HTTP 400
    and the detail "Court already booked for that time", and leaves the
    state as it was; so after a successful booking of [a, b), a request for
    [a', b') on that court with [a' < b] and [a < b'] (such as
    [10:00, 11:00) followed by [10:30, 10:45)) is rejected. *)
Theorem overlapping_request_is_rejected s payload token u :
  TOKENS s !! token = Some u →
  (∀ d, d ∈ booking s → conflicts_with payload d →
        create_booking s payload token
        = (HTTPException 400 "Court already booked for that time", s)) ∧
  (∀ first token1 id1 s1,
     create_booking s first token1 = (Return id1, s1) →
     court_id first = court_id payload →
     (start_time payload < end_time first)%Z →
     (start_time first < end_time payload)%Z →
     create_booking s1 payload token
     = (HTTPException 400 "Court already booked for that time", s1)).
Proof.
  intros Hu. split.
  - intros d Hd Hc. by eapply create_booking_conflict.
  - intros first token1 id1 s1 H1 Hc Hs He.
    apply create_booking_Return_inv in H1 as (u1 & _ & _ & _ & ->).
    eapply (create_booking_conflict _ _ _ u (stored_booking first u1 id1)).
    + done.
    + cbn [booking]. apply elem_of_app. right. by left.
    + by apply conflicts_with_stored.
Qed.

Lemma overlapping_request_is_rejected_witness :
  create_booking club_morning inside "tok_u2"
  = (HTTPException 400 "Court already booked for that time", club_morning).
Proof.
  apply (proj2 (overlapping_request_is_rejected club0 inside "tok_u2" bob eq_refl)
           morning "tok_u1" 1 club_morning club0_morning);
    [reflexivity | reflexivity | reflexivity].
Defined.

(** ** Interval ordering *)

(** C5, as the spec states it, fails: a request whose [start_time] is after
    its [end_time] is accepted on an empty collection and its document is
    stored. *)
Lemma backwards_interval_is_booked :
  (end_time backwards ≤ start_time backwards)%Z ∧
  create_booking club0 backwards "tok_u1"
  = (Return 1, {| TOKENS := TOKENS club0;
                  booking := [stored_booking backwards alice 1] |}).
Proof. split; [by vm_compute | reflexivity]. Qed.

(** C5, amended. [create_booking] does not look at the order of
    [start_time] and [end_time]: a request of an authenticated caller with
    [start_time >= end_time] is treated like any other. Either some stored
    document on the court satisfies [d.start < req.end and req.start < d.end]
    and the call fails with the conflict error, the state unchanged, or none
    does and the request is stored. *)
Theorem interval_order_is_not_validated s payload token u :
  TOKENS s !! token = Some u →
  (end_time payload ≤ start_time payload)%Z →
  ((∃ d, d ∈ booking s ∧ conflicts_with payload d) ∧
   create_booking s payload token
   = (HTTPException 400 "Court already booked for that time", s)) ∨
  ((∀ d, d ∈ booking s → ¬ conflicts_with payload d) ∧
   create_booking s payload token
   = (Return (fresh_oid (booking s)),
      {| TOKENS := TOKENS s;
         booking := booking s
                    ++ [stored_booking payload u (fresh_oid (booking s))] |})).
Proof.
  intros Hu _. destruct (conflict_dec s payload) as [(d & Hd & Hc)|Hfree].
  - left. split; [by exists d|]. by eapply create_booking_conflict.
  - right. split; [done|]. by apply create_booking_free.
Qed.

Lemma interval_order_is_not_validated_witness :
  ((∃ d, d ∈ booking club_morning ∧ conflicts_with backwards d) ∧
   create_booking club_morning backwards "tok_u2"
   = (HTTPException 400 "Court already booked for that time", club_morning)) ∨
  ((∀ d, d ∈ booking club_morning → ¬ conflicts_with backwards d) ∧
   create_booking club_morning backwards "tok_u2"
   = (Return (fresh_oid (booking club_morning)),
      {| TOKENS := TOKENS club_morning;
         booking := booking club_morning
                    ++ [stored_booking backwards bob
                          (fresh_oid (booking club_morning))] |})).
Proof.
  apply (interval_order_is_not_validated club_morning backwards "tok_u2" bob);
    [reflexivity | by vm_compute].
Defined.

(** ** Status *)

(** C6. The conflict check does not look at [status]: whatever the
    [status] field of a stored document is set to, the overlap filter
    matches it as before; and a stored reservation whose status is
    [cancelled] and whose interval overlaps the request on the same court
    makes an authenticated [create_booking] call fail with the conflict
    error. *)
Theorem cancelled_booking_still_blocks s payload token u d :
  TOKENS s !! token = Some u →
  d ∈ booking s →
  d !! "status" = Some (VStr "cancelled") →
  conflicts_with payload d →
  create_booking s payload token
  = (HTTPException 400 "Court already booked for that time", s) ∧
  (∀ v, matches (overlap_query payload) (<["status" := v]> d)
        = matches (overlap_query payload) d).
Proof.
  intros Hu Hd _ Hc. split; [by eapply create_booking_conflict|].
  intros v. cbn [overlap_query matches forallb existsb].
  by rewrite !lookup_insert_ne.
Qed.

Lemma cancelled_booking_still_blocks_witness :
  create_booking club_cancelled inside "tok_u2"
  = (HTTPException 400 "Court already booked for that time", club_cancelled) ∧
  (∀ v, matches (overlap_query inside) (<["status" := v]> cancelled_morning)
        = matches (overlap_query inside) cancelled_morning).
Proof.
  apply (cancelled_booking_still_blocks club_cancelled inside "tok_u2" bob
           cancelled_morning).
  - reflexivity.
  - left.
  - reflexivity.
  - split; [reflexivity|].
    exists (hhmm 10 0), (hhmm 11 0). by vm_compute.
Defined.

(** ** Retrying a rejected request *)

(** C7. Rejection is idempotent: when a [create_booking] call fails with
    the conflict error, the state is unchanged and the same call, repeated
    at once, fails with the conflict error again. *)
Theorem rejection_is_idempotent s payload token s' :
  create_booking s payload token
  = (HTTPException 400 "Court already booked for that time", s') →
  s' = s ∧
  create_booking s' payload token
  = (HTTPException 400 "Court already booked for that time", s').
Proof.
  intros H. pose proof H as [-> _]%create_booking_Exception_inv. done.
Qed.

Lemma rejection_is_idempotent_witness :
  club_morning = club_morning ∧
  create_booking club_morning inside "tok_u2"
  = (HTTPException 400 "Court already booked for that time", club_morning).
Proof.
  apply (rejection_is_idempotent club_morning inside "tok_u2" club_morning).
  reflexivity.
Defined.

(** ** What the conflict error carries *)

(** C8, as the spec states it, fails: the same request is rejected with the
    very same error in a store whose only (and conflicting) reservation has
    id 1 and interval [10:00, 11:00) and in a store whose only reservation
    has id 7 and interval [10:15, 12:00); so nothing read off the error can
    give the conflicting reservation's id and interval. *)
Lemma conflict_error_names_no_booking :
  booking club_morning = [stored_booking morning alice 1] ∧
  booking club_long_morning = [stored_booking long_morning bob 7] ∧
  (create_booking club_morning inside "tok_u2").1
  = HTTPException 400 "Court already booked for that time" ∧
  (create_booking club_long_morning inside "tok_u2").1
  = HTTPException 400 "Court already booked for that time" ∧
  ¬ (∃ read, names_conflicting_booking read).
Proof.
  repeat split; try reflexivity.
  intros [read Hread].
  destruct (Hread club_morning inside "tok_u2" _ _ club_morning_inside)
    as (d1 & s1 & e1 & Hd1 & _ & _ & Hr1).
  destruct (Hread club_long_morning inside "tok_u2" _ club_long_morning eq_refl)
    as (d2 & s2 & e2 & Hd2 & _ & _ & Hr2).
  apply list_elem_of_singleton in Hd1, Hd2. subst d1 d2.
  rewrite Hr1 in Hr2. rewrite !stored_booking_oid in Hr2. discriminate Hr2.
Qed.

(** C8, amended. On conflict the error of [create_booking] is HTTP 400
    with the fixed detail "Court already booked for that time": it is the
    same value for every rejected request, whichever stored reservation
    conflicts, and carries neither that reservation's id nor its
    interval. *)
Theorem conflict_error_is_fixed s payload token u d :
  TOKENS s !! token = Some u →
  d ∈ booking s →
  conflicts_with payload d →
  (create_booking s payload token).1
  = HTTPException 400 "Court already booked for that time" ∧
  (∀ s' payload' token' u' d',
     TOKENS s' !! token' = Some u' →
     d' ∈ booking s' →
     conflicts_with payload' d' →
     (create_booking s' payload' token').1 = (create_booking s payload token).1).
Proof.
  intros Hu Hd Hc.
  rewrite (create_booking_conflict _ _ _ _ _ Hu Hd Hc). split; [done|].
  intros s' payload' token' u' d' Hu' Hd' Hc'.
  by rewrite (create_booking_conflict _ _ _ _ _ Hu' Hd' Hc').
Qed.

Lemma morning_conflicts_with_inside :
  conflicts_with inside (stored_booking morning alice 1).
Proof. apply conflicts_with_stored. by vm_compute. Defined.

Lemma conflict_error_is_fixed_witness :
  (create_booking club_morning inside "tok_u2").1
  = HTTPException 400 "Court already booked for that time" ∧
  (∀ s' payload' token' u' d',
     TOKENS s' !! token' = Some u' →
     d' ∈ booking s' →
     conflicts_with payload' d' →
     (create_booking s' payload' token').1
     = (create_booking club_morning inside "tok_u2").1).
Proof.
  apply (conflict_error_is_fixed club_morning inside "tok_u2" bob
           (stored_booking morning alice 1)).
  - reflexivity.
  - left.
  - exact morning_conflicts_with_inside.
Defined.

(** ** The filter of [my_bookings] *)

Lemma matches_user_id uid d :
  matches (FAnd [FEq "user_id" (VStr uid)]) d = true ↔
  d !! "user_id" = Some (VStr uid).
Proof.
  cbn [matches forallb]. by rewrite andb_true_r, bool_decide_eq_true.
Qed.

Lemma my_bookings_Some list_order s token u :
  TOKENS s !! token = Some u →
  my_bookings list_order s token
  = Return (list_order (find (FAnd [FEq "user_id" (VStr (user_id u))]) (booking s))).
Proof.
  intros Hu. unfold my_bookings, get_documents.
  by rewrite (get_current_user_Some _ _ _ Hu).
Qed.

(** ** Attribution *)

(** C10. Whenever [create_booking] succeeds, the token resolves to a
    session [u] and the one document added to the store has [user_id] equal
    to [u]'s; the dumped request body has no [user_id] entry, so the value
    stored never comes from the request. *)
Theorem booking_attributed_to_caller s payload token _id s' :
  create_booking s payload token = (Return _id, s') →
  ∃ u d,
    get_current_user s token = Return u ∧
    booking s' = booking s ++ [d] ∧
    d !! "user_id" = Some (VStr (user_id u)) ∧
    model_dump payload !! "user_id" = None.
Proof.
  intros (u & Hu & _ & _ & ->)%create_booking_Return_inv.
  exists u, (stored_booking payload u _id). cbn [booking].
  split; [by apply get_current_user_Some|]. split; [done|].
  split; [apply stored_booking_user|].
  unfold model_dump. by simplify_map_eq.
Qed.

Lemma booking_attributed_to_caller_witness :
  ∃ u d,
    get_current_user club_morning "tok_u2" = Return u ∧
    booking club_touching = booking club_morning ++ [d] ∧
    d !! "user_id" = Some (VStr (user_id u)) ∧
    model_dump next_hour !! "user_id" = None.
Proof.
  apply (booking_attributed_to_caller club_morning next_hour "tok_u2" 2
           club_touching).
  reflexivity.
Defined.

(** * The rest of the API: proofs *)

(** ** The typed store *)

Lemma typed_fresh_oid_above {A} (c : list (stored A)) d :
  d ∈ c → doc_id d < Typed.fresh_oid c.
Proof.
  unfold Typed.fresh_oid. induction c as [|x c IH].
  - by intros ?%not_elem_of_nil.
  - rewrite fmap_cons. cbn [foldr].
    intros [->|Hd]%elem_of_cons; [lia|]. specialize (IH Hd). lia.
Qed.

Lemma typed_elem_of_find {A} (q : stored A → bool) c d :
  d ∈ Typed.find q c ↔ d ∈ c ∧ q d = true.
Proof. unfold Typed.find. rewrite !list_elem_of_In. apply filter_In. Qed.

(** ** [login] *)



(** ** What each writing handler leaves alone *)







(** ** No double booking, whatever else goes on *)








Example busy_day_bookings :
  booking (core (run club_staffed busy_day))
  = [ stored_booking morning alice 1; stored_booking next_hour bob 2 ] ∧
  db_court (run club_staffed busy_day) = [Stored 1 centre_court] ∧
  db_matchresult (run club_staffed busy_day) = [Stored 1 a_result] ∧
  db_tournament (run club_staffed busy_day) = [].
Proof. by vm_compute. Qed.

(** ** One account per email *)





(** ** Who may create courts and tournaments *)

Lemma create_court_as s_role w payload token u :
  TOKENS (core w) !! token = Some u → role u = s_role →
  create_court w payload token
  = if bool_decide (s_role ≠ "admin")
    then (HTTPException 403 "Admins only", w)
    else (Return (Typed.fresh_oid (db_court w)),
          set_db_court w
            (db_court w ++ [Stored (Typed.fresh_oid (db_court w)) payload])).
Proof.
  intros Hu <-. unfold create_court.
  rewrite (get_current_user_Some _ _ _ Hu). by case_bool_decide.
Qed.

Lemma create_tournament_as s_role w payload token u :
  TOKENS (core w) !! token = Some u → role u = s_role →
  create_tournament w payload token
  = if bool_decide (s_role ≠ "admin")
    then (HTTPException 403 "Admins only", w)
    else (Return (Typed.fresh_oid (db_tournament w)),
          set_db_tournament w
            (db_tournament w
             ++ [Stored (Typed.fresh_oid (db_tournament w)) payload])).
Proof.
  intros Hu <-. unfold create_tournament.
  rewrite (get_current_user_Some _ _ _ Hu). by case_bool_decide.
Qed.

(** X7. The role of the session decides who creates courts and
    tournaments. With a token whose session has the role [admin],
    [create_court] and [create_tournament] store the request as sent under
    an id that no stored document has, and [list_courts] and
    [list_tournaments] then hold it. With a token whose session has any
    other role, both answer 403 "Admins only" and change nothing. *)
Theorem session_role_decides_admin_rights w court tournament token u :
  TOKENS (core w) !! token = Some u →
  (role u = "admin" →
   (∃ i, create_court w court token
         = (Return i, set_db_court w (db_court w ++ [Stored i court])) ∧
         (i ∉ ids (db_court w)) ∧
         (Stored i court ∈ list_courts (create_court w court token).2)) ∧
   (∃ i, create_tournament w tournament token
         = (Return i,
            set_db_tournament w (db_tournament w ++ [Stored i tournament])) ∧
         (i ∉ ids (db_tournament w)) ∧
         (Stored i tournament
          ∈ list_tournaments (create_tournament w tournament token).2))) ∧
  (role u ≠ "admin" →
   create_court w court token = (HTTPException 403 "Admins only", w) ∧
   create_tournament w tournament token = (HTTPException 403 "Admins only", w)).
Proof.
  intros Hu.
  rewrite (create_court_as (role u) _ _ _ _ Hu eq_refl).
  rewrite (create_tournament_as (role u) _ _ _ _ Hu eq_refl).
  split.
  - intros Hadmin. rewrite bool_decide_eq_false_2 by (by intros []).
    unfold list_courts, list_tournaments, Typed.get_documents.
    cbn [snd set_db_court set_db_tournament db_court db_tournament].
    split; eexists; (split; [done|]);
      (split; [|apply elem_of_app; right; left]);
      unfold ids; intros (d & Hi & Hd)%list_elem_of_fmap;
      pose proof (typed_fresh_oid_above _ _ Hd); lia.
  - intros Hplayer. by rewrite bool_decide_eq_true_2.
Qed.

Lemma session_role_decides_admin_rights_witness :
  (∃ i, create_court club_staffed centre_court "tok_u7"
        = (Return i,
           set_db_court club_staffed
             (db_court club_staffed ++ [Stored i centre_court])) ∧
        (i ∉ ids (db_court club_staffed)) ∧
        (Stored i centre_court
         ∈ list_courts (create_court club_staffed centre_court "tok_u7").2)) ∧
  (∃ i, create_tournament club_staffed spring_open "tok_u7"
        = (Return i,
           set_db_tournament club_staffed
             (db_tournament club_staffed ++ [Stored i spring_open])) ∧
        (i ∉ ids (db_tournament club_staffed)) ∧
        (Stored i spring_open
         ∈ list_tournaments
             (create_tournament club_staffed spring_open "tok_u7").2)).
Proof.
  apply (proj1 (session_role_decides_admin_rights club_staffed centre_court
                  spring_open "tok_u7" greta eq_refl)).
  reflexivity.
Defined.

Example player_may_not_create_courts :
  create_court club_staffed centre_court "tok_u1"
  = (HTTPException 403 "Admins only", club_staffed) ∧
  create_court club_staffed centre_court "tok_1"
  = (HTTPException 401 "Invalid token", club_staffed).
Proof. by vm_compute. Qed.

(** ** Without an admin login nothing is created *)





(** ** No token is ever issued *)






Example a_day_changes_nothing : run empty_club a_day = empty_club.
Proof. by vm_compute. Qed.

(** ** The default name *)

Lemma before_at_split s :
  ∃ rest,
    s = before_at s +:+ rest ∧
    (("@"%char) ∉ String.list_ascii_of_string (before_at s)) ∧
    (rest = "" ∨ ∃ r, rest = String "@" r).
Proof.
  induction s as [|a s (rest & Hs & Hno & Hrest)]; cbn [before_at].
  - exists "". split; [done|]. split; [apply not_elem_of_nil|by left].
  - destruct (Ascii.eqb a "@") eqn:Ha.
    + apply Ascii.eqb_eq in Ha as ->. exists (String "@" s).
      split; [done|]. split; [apply not_elem_of_nil|]. right. by exists s.
    + exists rest. split.
      { rewrite Hs at 1. reflexivity. }
      split; [|done]. cbn.
      apply not_elem_of_cons. split; [|done].
      intros <-. by rewrite Ascii.eqb_refl in Ha.
Qed.

(** X10. The name [login] gives a new user. A non-empty name in the
    request is taken as it is. When the request has no name, or an empty
    one, the name is the part of the email before its first [@]: it
    contains no [@], and the email is that name followed by nothing (an
    address without [@]) or by a text that starts with [@]. *)
Theorem default_name_is_local_part name email :
  match name with
  | Some (String a s) => name_or_local_part name email = String a s
  | _ =>
      ∃ rest,
        email = name_or_local_part name email +:+ rest ∧
        (("@"%char) ∉ String.list_ascii_of_string (name_or_local_part name email)) ∧
        (rest = "" ∨ ∃ r, rest = String "@" r)
  end.
Proof.
  destruct name as [[|a s]|]; cbn [name_or_local_part].
  - rewrite bool_decide_eq_true_2 by done. apply before_at_split.
  - by rewrite bool_decide_eq_false_2 by done.
  - apply before_at_split.
Qed.


(** ** Results *)

(** X11. [submit_result] checks the token and nothing else. With any token
    the map holds, whatever the role of its session, any result is stored
    as sent under a new id, including one between other players or one
    whose winner is neither player. With a token the map does not hold,
    the answer is 401 and nothing is stored. *)
Theorem submit_result_checks_only_the_token w result token :
  (∀ u,
     TOKENS (core w) !! token = Some u →
     ∃ i,
       submit_result w result token
       = (Return i,
          set_db_matchresult w (db_matchresult w ++ [Stored i result])) ∧
       i ∉ ids (db_matchresult w)) ∧
  (TOKENS (core w) !! token = None →
   submit_result w result token = (HTTPException 401 "Invalid token", w)).
Proof.
  split.
  - intros u Hu. unfold submit_result.
    rewrite (get_current_user_Some _ _ _ Hu). eexists. split; [done|].
    unfold ids. intros (d & Hi & Hd)%list_elem_of_fmap.
    pose proof (typed_fresh_oid_above _ _ Hd). lia.
  - intros Hnone. unfold submit_result.
    by rewrite (get_current_user_None _ _ Hnone).
Qed.

Lemma submit_result_checks_only_the_token_witness :
  ∃ i,
    submit_result club_staffed a_result "tok_u1"
    = (Return i,
       set_db_matchresult club_staffed
         (db_matchresult club_staffed ++ [Stored i a_result])) ∧
    i ∉ ids (db_matchresult club_staffed).
Proof.
  apply (proj1 (submit_result_checks_only_the_token club_staffed a_result
                  "tok_u1") alice).
  reflexivity.
Defined.

(** ** Listing a user's bookings *)

Lemma elem_of_listed list_order q c d :
  (∀ l, list_order l ≡ₚ l) → d ∈ list_order (find q c) ↔ d ∈ find q c.
Proof. intros Hperm. by rewrite (Hperm (find q c)). Qed.

Lemma find_user_id uid c :
  find (FAnd [FEq "user_id" (VStr uid)]) c
  = List.filter (λ d, bool_decide (d !! "user_id" = Some (VStr uid))) c.
Proof.
  unfold find. apply List.filter_ext. intros d. cbn [matches forallb].
  apply andb_true_r.
Qed.

(** X12. A booking appears in the list of the user it was made for: when
    [create_booking] succeeds, [my_bookings] with the same token, in
    whatever order the gateway lists, returns a list that holds a document
    with the returned id, the [user_id] of the session of that token, and
    the court and interval of the request. *)
Theorem booking_is_listed_for_its_token list_order s payload token i s' :
  (∀ l, list_order l ≡ₚ l) →
  create_booking s payload token = (Return i, s') →
  ∃ u l d,
    get_current_user s token = Return u ∧
    my_bookings list_order s' token = Return l ∧
    d ∈ l ∧
    oid_of d = i ∧
    d !! "user_id" = Some (VStr (user_id u)) ∧
    on_court (court_id payload) d ∧
    spans d (start_time payload) (end_time payload).
Proof.
  intros Hperm (u & Hu & _ & _ & ->)%create_booking_Return_inv.
  eexists u, _, (stored_booking payload u i).
  split; [by apply get_current_user_Some|].
  split; [by apply my_bookings_Some|]. split.
  - apply elem_of_listed; [done|]. apply elem_of_find.
    split; [cbn [booking]; apply elem_of_app; right; left|].
    apply matches_user_id, stored_booking_user.
  - split; [apply stored_booking_oid|]. split; [apply stored_booking_user|].
    split; [apply stored_booking_court|apply stored_booking_spans].
Qed.

Lemma booking_is_listed_for_its_token_witness :
  ∃ u l d,
    get_current_user club0 "tok_u1" = Return u ∧
    my_bookings reverse club_morning "tok_u1" = Return l ∧
    d ∈ l ∧
    oid_of d = 1 ∧
    d !! "user_id" = Some (VStr (user_id u)) ∧
    on_court (court_id morning) d ∧
    spans d (start_time morning) (end_time morning).
Proof.
  apply (booking_is_listed_for_its_token reverse club0 morning "tok_u1" 1
           club_morning).
  - intros l. apply reverse_Permutation.
  - reflexivity.
Defined.

(** X16. [my_bookings] lists the caller's own bookings and no others. For
    a token the map holds it returns, in whatever order the gateway
    lists, exactly the stored documents whose [user_id] is the one of the
    token's session, each as often as it is stored; nothing but the
    [user_id] decides, so neither the [status] nor the interval of a
    document matters, and no document with another [user_id] is ever
    listed. For a token the map does not hold it answers 401. *)
Theorem my_bookings_lists_own_bookings_only list_order s token :
  (∀ l, list_order l ≡ₚ l) →
  match TOKENS s !! token with
  | Some u =>
      ∃ l,
        my_bookings list_order s token = Return l ∧
        l ≡ₚ List.filter
               (λ d, bool_decide (d !! "user_id" = Some (VStr (user_id u))))
               (booking s) ∧
        (∀ d, d ∈ l ↔
              d ∈ booking s ∧ d !! "user_id" = Some (VStr (user_id u)))
  | None => my_bookings list_order s token = HTTPException 401 "Invalid token"
  end.
Proof.
  intros Hperm. destruct (TOKENS s !! token) as [u|] eqn:Hu.
  - eexists. split; [by apply my_bookings_Some|]. split.
    + by rewrite Hperm, find_user_id.
    + intros d. rewrite elem_of_listed by done.
      by rewrite elem_of_find, matches_user_id.
  - unfold my_bookings. by rewrite (get_current_user_None _ _ Hu).
Qed.

Lemma my_bookings_lists_own_bookings_only_witness :
  ∃ l,
    my_bookings reverse club_touching "tok_u2" = Return l ∧
    l ≡ₚ List.filter
           (λ d, bool_decide (d !! "user_id" = Some (VStr (user_id bob))))
           (booking club_touching) ∧
    (∀ d, d ∈ l ↔
          d ∈ booking club_touching ∧
          d !! "user_id" = Some (VStr (user_id bob))).
Proof.
  apply (my_bookings_lists_own_bookings_only reverse club_touching "tok_u2").
  intros l. apply reverse_Permutation.
Defined.

Example bob_sees_his_booking_only :
  my_bookings reverse club_touching "tok_u2"
  = Return [stored_booking next_hour bob 2].
Proof. reflexivity. Qed.

Example alice_sees_both_of_hers :
  my_bookings reverse club_early_late "tok_u1"
  = Return [stored_booking late alice 2; stored_booking early alice 1] ∧
  my_bookings id club_early_late "tok_u1"
  = Return [stored_booking early alice 1; stored_booking late alice 2].
Proof. split; reflexivity. Qed.

(** ** Leaderboard and player directory *)

#[local] Instance by_rating_desc_total : Total by_rating_desc.
Proof.
  intros a b. unfold by_rating_desc.
  destruct (User.rating (fields a)), (User.rating (fields b)); cbn; try tauto.
  lia.
Qed.

#[local] Instance by_rating_desc_trans : Transitive by_rating_desc.
Proof.
  intros a b c. unfold by_rating_desc.
  destruct (User.rating (fields a)), (User.rating (fields b)),
    (User.rating (fields c)); cbn; try tauto.
  lia.
Qed.

Lemma cursor_limit_take {A} first_batch n (l : list A) :
  ∃ k, cursor_limit first_batch n l = take k l ∧
       ((0 < n)%Z → k = Z.to_nat n) ∧
       (n = 0%Z → k = length l).
Proof.
  unfold cursor_limit. repeat case_bool_decide.
  - exists (length l). rewrite take_ge by done. split; [done|]. split; [lia|done].
  - exists (Z.to_nat n). split; [done|]. split; [done|lia].
  - eexists. split; [done|]. split; lia.
Qed.

Lemma StronglySorted_lookup {A} (R : relation A) l i j a b :
  StronglySorted R l → i < j → l !! i = Some a → l !! j = Some b → R a b.
Proof.
  intros Hs. revert i j. induction Hs as [|x l Hs IH Hall]; intros i j Hij Ha Hb.
  - by rewrite lookup_nil in Ha.
  - destruct j as [|j]; [lia|]. cbn in Hb. destruct i as [|i]; cbn in Ha.
    + injection Ha as <-. rewrite Forall_forall in Hall. apply Hall.
      by eapply list_elem_of_lookup_2.
    + apply (IH i j); [lia|done..].
Qed.

Lemma sort_rating_desc_sorted c : StronglySorted by_rating_desc (sort_rating_desc c).
Proof. apply StronglySorted_merge_sort; apply _. Qed.

Lemma sort_rating_desc_perm c : sort_rating_desc c ≡ₚ c.
Proof. apply merge_sort_Permutation. Qed.

Lemma player_filter_true level d :
  player_filter level d = true ↔
  User.role (fields d) = User.player ∧
  match level with
  | Some (String a l) =>
      User.level_str <$> User.level (fields d) = Some (String a l)
  | _ => True
  end.
Proof.
  unfold player_filter. rewrite andb_true_iff, bool_decide_eq_true.
  destruct level as [[|a l]|]; [tauto| |tauto].
  by rewrite bool_decide_eq_true.
Qed.

(** X13. The leaderboard lists players only. Every row is the id (as a
    string), name, rating and level of a stored user whose role is
    [player]; an admin never shows, whatever the rating. With a non-empty
    [level] every row has that level. An empty [level] filters nothing:
    it gives the same list as no [level]. *)
Theorem leaderboard_lists_players_only first_batch w level limit :
  (∀ row,
     row ∈ leaderboard first_batch w level limit →
     ∃ p, p ∈ db_user w ∧
          User.role (fields p) = User.player ∧
          row = leaderboard_row p ∧
          match level with
          | Some (String a l) => LeaderboardRow.level row = Some (String a l)
          | _ => True
          end) ∧
  leaderboard first_batch w (Some "") limit
  = leaderboard first_batch w None limit.
Proof.
  split; [|done].
  intros row (p & -> & Hp)%list_elem_of_fmap.
  destruct (cursor_limit_take first_batch limit
              (sort_rating_desc (Typed.find (player_filter level) (db_user w))))
    as (k & Hk & _).
  rewrite Hk in Hp. apply (subseteq_take k) in Hp.
  rewrite sort_rating_desc_perm in Hp.
  apply typed_elem_of_find in Hp as [Hin [Hr Hl]%player_filter_true].
  exists p. repeat split; [done..|]. by destruct level as [[|a l]|].
Qed.

(** X14. The leaderboard is the head of the ranking. Its rows come in
    descending order of rating, a missing rating last. A positive [limit]
    bounds the number of rows, and the rows are then the best rated: the
    listed players together with the players left out are all the players
    that pass the filter, and no player left out has a higher rating than
    a listed one. A [limit] of 0 does not give an empty list but every
    player that passes the filter. *)
Theorem leaderboard_is_head_of_ranking first_batch w level limit :
  (∀ i j a b,
     i < j →
     leaderboard first_batch w level limit !! i = Some a →
     leaderboard first_batch w level limit !! j = Some b →
     rating_le (LeaderboardRow.rating b) (LeaderboardRow.rating a)) ∧
  ((0 < limit)%Z →
   length (leaderboard first_batch w level limit) ≤ Z.to_nat limit) ∧
  (∃ listed left_out,
     leaderboard first_batch w level limit = leaderboard_row <$> listed ∧
     listed ++ left_out ≡ₚ Typed.find (player_filter level) (db_user w) ∧
     (∀ a b, a ∈ listed → b ∈ left_out → by_rating_desc a b) ∧
     ((0 < limit)%Z → left_out ≠ [] → length listed = Z.to_nat limit) ∧
     (limit = 0%Z → left_out = [])).
Proof.
  unfold leaderboard. cbv zeta.
  set (players := Typed.find (player_filter level) (db_user w)).
  destruct (cursor_limit_take first_batch limit (sort_rating_desc players))
    as (k & -> & Hpos & Hzero).
  pose proof (sort_rating_desc_sorted players) as Hsorted.
  split; [|split].
  - intros i j a b Hij Ha Hb.
    rewrite list_lookup_fmap in Ha, Hb.
    destruct (take k _ !! i) as [pa|] eqn:Hpa; [|done].
    destruct (take k _ !! j) as [pb|] eqn:Hpb; [|done].
    injection Ha as <-. injection Hb as <-. cbn.
    rewrite <- (take_drop k (sort_rating_desc players)) in Hsorted.
    apply StronglySorted_app_1_l in Hsorted.
    exact (StronglySorted_lookup _ _ _ _ _ _ Hsorted Hij Hpa Hpb).
  - intros Hl. rewrite length_fmap, length_take, (Hpos Hl). lia.
  - exists (take k (sort_rating_desc players)), (drop k (sort_rating_desc players)).
    split; [done|]. split; [by rewrite take_drop, sort_rating_desc_perm|].
    split; [|split].
    + intros a b Ha Hb.
      rewrite <- (take_drop k (sort_rating_desc players)) in Hsorted.
      by eapply StronglySorted_app_1_elem_of.
    + intros Hl Hne. rewrite (Hpos Hl) in *. rewrite length_take.
      destruct (decide (Z.to_nat limit ≤ length (sort_rating_desc players)));
        [lia|].
      exfalso. apply Hne. apply drop_ge. lia.
    + intros Hl. rewrite (Hzero Hl). by apply drop_ge.
Qed.




(** ** Running the listings *)

Example leaderboard_top_two :
  leaderboard 101 rated_club None 2
  = [ leaderboard_row (rated 4 "cy" User.player (Some 1800%Z) (Some User.advanced));
      leaderboard_row (rated 1 "ann" User.player (Some 1500%Z) (Some User.advanced)) ].
Proof. by vm_compute. Qed.

Example leaderboard_limit_zero :
  LeaderboardRow.name <$> leaderboard 101 rated_club None 0 = ["cy"; "ann"; "ben"].
Proof. by vm_compute. Qed.

Example leaderboard_unknown_level :
  leaderboard 101 rated_club (Some "expert") 50 = [].
Proof. by vm_compute. Qed.

Example directory_stored_order :
  player_directory 101 (λ _, None) rated_club None (Some "advanced") 50
  = Return [ directory_row (rated 1 "ann" User.player (Some 1500%Z) (Some User.advanced));
             directory_row (rated 4 "cy" User.player (Some 1800%Z) (Some User.advanced)) ].
Proof. by vm_compute. Qed.

Example directory_rejected_pattern :
  player_directory 101 (λ _, None) rated_club (Some "(") None 50
  = HTTPException 500 "Internal Server Error".
Proof. reflexivity. Qed.


Example login_answers_500 :
  login club_staffed carol_admin
  = (HTTPException 500 "Internal Server Error", club_staffed).
Proof. reflexivity. Qed.
